(** * searoute-js: snapping to the maritime network and route assembly

    A shallow embedding of [index.js] of searoute-js: the exported function
    [searoute(origin, destination, units)] and its helper
    [snapToNetwork(point)].

    - JavaScript numbers are IEEE-754 binary64 values, modelled with the
      Standard Library's [spec_float]; [<], [!] and [*] follow ECMAScript
      (a comparison with NaN is false; [0], [-0] and [NaN] are falsy).
    - The data file [marnet_densified.json] and the numeric and graph
      routines the module calls ([pointToLineDistance], [rhumbDistance] and
      [length] of Turf, [findPath] of geojson-path-finder) are parameters:
      every theorem holds for every network and for all such routines.
    - The iterators [featureEach] and [coordEach] and the constructors
      [point] and [lineString] of Turf are written out.
    - [console.log] appends to a console that is threaded through the
      calls; an exception ends a call with [Throw].
    - [snapToNetwork] is read twice.  The first reading takes
      [rhumbDistance] as a function that measures; it is the code wherever
      [rhumbDistance] rewrites no vertex and does not throw.  The second,
      [snapToNetwork_aliased], keeps the network as the store that
      [rhumbDistance] writes to through the arrays line 55 hands it. *)

From Stdlib Require Import ZArith List Bool String Lia.
From Stdlib Require Import Floats.SpecFloat.
Import ListNotations.

Local Open Scope Z_scope.

(* ================================================================== *)
(** ** JavaScript numbers *)

Module JS.

Definition prec : Z := 53.
Definition emax : Z := 1024.

(** A JavaScript number: a binary64 float. *)
Definition Number : Type := spec_float.

(** The number denoted by an integer literal. *)
Definition of_Z (z : Z) : Number := binary_normalize prec emax z 0 false.

(** [a < b], [a <= b] and [a * b] on numbers; a comparison with NaN is
    [false]. *)
Definition lt (a b : Number) : bool := SFltb a b.
Definition le (a b : Number) : bool := SFleb a b.
Definition mul (a b : Number) : Number := SFmul prec emax a b.
Definition div (a b : Number) : Number := SFdiv prec emax a b.

(** ToBoolean on a number: [+0], [-0] and [NaN] are falsy. *)
Definition truthy (a : Number) : bool :=
  match a with
  | S754_zero _ | S754_nan => false
  | _ => true
  end.

(** [!v] for a variable holding [null] or a number. *)
Definition not_ (v : option Number) : bool :=
  match v with
  | None => true
  | Some a => negb (truthy a)
  end.

Definition zero : Number := S754_zero false.

(** ToNumber on a variable holding [null] or a number: [null] is [+0]. *)
Definition toNumber (v : option Number) : Number :=
  match v with
  | None => zero
  | Some a => a
  end.

End JS.


(* ------------------------------------------------------------------ *)
(** *** The order on numbers *)

(** A key whose lexicographic order is the order [SFcompare] decides:
    class (infinities, sign of finite values, zero), then exponent, then
    mantissa, the last two reversed for negative values. *)
Definition key (a : JS.Number) : option (Z * Z * Z) :=
  match a with
  | S754_nan => None
  | S754_infinity true => Some (-2, 0, 0)
  | S754_infinity false => Some (2, 0, 0)
  | S754_zero _ => Some (0, 0, 0)
  | S754_finite true m e => Some (-1, - e, - Z.pos m)
  | S754_finite false m e => Some (1, e, Z.pos m)
  end.

Definition key_lt (x y : Z * Z * Z) : Prop :=
  let '(a1, b1, c1) := x in
  let '(a2, b2, c2) := y in
  a1 < a2 \/ (a1 = a2 /\ (b1 < b2 \/ (b1 = b2 /\ c1 < c2))).

Definition key_le (x y : Z * Z * Z) : Prop := key_lt x y \/ x = y.

(* ================================================================== *)
(** ** Data model *)

(** A GeoJSON position [[lon, lat]]. *)
Definition Position : Type := (JS.Number * JS.Number)%type.

Definition Number_eq_dec (a b : JS.Number) : {a = b} + {a <> b}.
Proof.
  decide equality; first [apply Bool.bool_dec | apply Pos.eq_dec | apply Z.eq_dec].
Defined.

Definition Position_eq_dec (a b : Position) : {a = b} + {a <> b}.
Proof. decide equality; apply Number_eq_dec. Defined.

(** A feature of the network: a [Feature<LineString>], kept by its
    coordinate array. *)
Definition LineFeature : Type := list Position.

(** A [Feature<Point>]; [pt_coordinates] is [geometry.coordinates], which
    holds [null] when the scanned feature has no vertex. *)
Record PointFeature : Type := point { pt_coordinates : option Position }.

(** A [Feature<LineString>] with the two properties [searoute] assigns;
    [None] is an absent property. *)
Record LineStringFeature : Type := mkLineString {
  geometry_coordinates : list Position;
  properties_units : option string;
  properties_length : option JS.Number
}.

(** Exceptions and results of calls. *)
Inductive exn : Type :=
| TypeError
| Error (message : string).

Inductive outcome (A : Type) : Type :=
| Ok (a : A)
| Throw (e : exn).
Arguments Ok {A} a.
Arguments Throw {A} e.

(** What [console.log] prints. *)
Inductive logged : Type :=
| LogNumber (n : nat)
| LogString (s : string).

Definition console : Type := list logged.

(* ------------------------------------------------------------------ *)
(** *** Computations that log and may throw *)

Definition M (A : Type) : Type := console -> outcome A * console.

Definition ret {A} (a : A) : M A := fun c => (Ok a, c).

Definition throw {A} (e : exn) : M A := fun c => (Throw e, c).

Definition bind {A B} (m : M A) (k : A -> M B) : M B :=
  fun c =>
    match m c with
    | (Ok a, c') => k a c'
    | (Throw e, c') => (Throw e, c')
    end.

Definition lift {A} (o : outcome A) : M A := fun c => (o, c).

Definition console_log (l : logged) : M unit := fun c => (Ok tt, c ++ [l]).

Notation "x <- m ;; k" := (bind m (fun x => k))
  (at level 61, m at next level, right associativity).
Notation "m ;;; k" := (bind m (fun _ => k))
  (at level 61, right associativity).

(** [try { body } catch (err) { throw err; }] rethrows what it catches. *)
Definition try_rethrow {A} (body : M A) : M A :=
  fun c =>
    match body c with
    | (Ok a, c') => (Ok a, c')
    | (Throw err, c') => (Throw err, c')
    end.

(* ================================================================== *)
(** ** Turf helpers written out *)

(** [turfMeta.featureEach] on a FeatureCollection: the callback sees each
    feature with its index, in order. *)
Fixpoint featureEach {St} (features : list LineFeature)
    (callback : LineFeature -> nat -> St -> St) (ftIndex : nat) (st : St) : St :=
  match features with
  | [] => st
  | feature :: rest =>
      featureEach rest callback (S ftIndex) (callback feature ftIndex st)
  end.

(** [turfMeta.coordEach] on a LineString feature: the callback sees each
    coordinate, in order. *)
Fixpoint coordEach {St} (feature : LineFeature)
    (callback : Position -> St -> St) (st : St) : St :=
  match feature with
  | [] => st
  | currentCoord :: rest => coordEach rest callback (callback currentCoord st)
  end.

(** [turfHelpers.lineString]: refuses fewer than two positions, and
    starts with an empty [properties] object. *)
Definition lineString (coordinates : list Position) : outcome LineStringFeature :=
  if (List.length coordinates <? 2)%nat
  then Throw (Error "coordinates must be an array of two or more positions")
  else Ok (mkLineString coordinates None None).

(** The literals [30000] and [1.15078] of [index.js]; the second is the
    binary64 number nearest to 115078/100000, which the correctly rounded
    quotient computes (see [nmFactor_value]). *)
Definition maxDistance : JS.Number := JS.of_Z 30000.
Definition nmFactor : JS.Number := JS.div (JS.of_Z 115078) (JS.of_Z 100000).

(* ================================================================== *)
(** ** index.js *)

Section Searoute.

(** [marnet_densified.json]: the features of the network, in order. *)
Variable marnet : list LineFeature.

(** [pointToLineDistance(point, feature, { units: 'kilometers' })]. *)
Variable pointToLineDistance : Position -> LineFeature -> JS.Number.

(** [rhumbDistance(point, currentCoord)]. *)
Variable rhumbDistance : Position -> Position -> JS.Number.

(** [routefinder.findPath(a, b)]: [None] for [null], else [route.path]. *)
Variable findPath : PointFeature -> PointFeature -> option (list Position).

(** [length(lineString, { units: u })], by the line's coordinates. *)
Variable length : list Position -> string -> outcome JS.Number.

(** The callback of the scan over features (lines 42-48). *)
Definition nearestLine_step (pt : Position)
    (feature : LineFeature) (ftIndex : nat) (st : nat * JS.Number)
  : nat * JS.Number :=
  let '(nearestLineIndex, distance) := st in
  let dist := pointToLineDistance pt feature in
  if JS.lt dist distance then (ftIndex, dist)
  else (nearestLineIndex, distance).

(** The callback of the scan over vertices (lines 53-64). *)
Definition nearestVertex_step (pt : Position)
    (currentCoord : Position) (st : option JS.Number * option Position)
  : option JS.Number * option Position :=
  let '(nearestVertexDist, nearestCoord) := st in
  let distToVertex := rhumbDistance pt currentCoord in
  if JS.not_ nearestVertexDist then (Some distToVertex, Some currentCoord)
  else if JS.lt distToVertex (JS.toNumber nearestVertexDist)
       then (Some distToVertex, Some currentCoord)
       else (nearestVertexDist, nearestCoord).

(** Lines 39-48: the index and distance left by the first scan. *)
Definition nearestLine (pt : Position) : nat * JS.Number :=
  featureEach marnet (nearestLine_step pt) 0%nat (0%nat, maxDistance).

(** Lines 50-64: the distance and coordinate left by the second scan. *)
Definition nearestVertex (pt : Position) (feature : LineFeature)
  : option JS.Number * option Position :=
  coordEach feature (nearestVertex_step pt) (None, None).

(** Lines 37-67.  On an empty network [marnet.features[0]] is
    [undefined], and [coordEach] raises a TypeError on reading it. *)
Definition snapToNetwork (pt : Position) : M PointFeature :=
  let '(nearestLineIndex, distance) := nearestLine pt in
  console_log (LogNumber nearestLineIndex) ;;;
  match nth_error marnet nearestLineIndex with
  | None => throw TypeError
  | Some feature =>
      let '(nearestVertexDist, nearestCoord) := nearestVertex pt feature in
      ret (point nearestCoord)
  end.

(** The value a call of [snapToNetwork] returns, read off its body
    without the console (see [snapToNetwork_run]). *)
Definition snapped (pt : Position) : outcome PointFeature :=
  match nth_error marnet (fst (nearestLine pt)) with
  | None => Throw TypeError
  | Some feature => Ok (point (snd (nearestVertex pt feature)))
  end.

(** The default value of the parameter [units = 'nm']. *)
Definition defaultUnits (unitsArg : option string) : string :=
  match unitsArg with
  | Some u => u
  | None => "nm"%string
  end.

(** Lines 11-35; [unitsArg] is [None] when the caller leaves [units]
    out. *)
Definition searoute (origin destination : Position) (unitsArg : option string)
  : M (option LineStringFeature) :=
  let units := defaultUnits unitsArg in
  try_rethrow (
    snappedOrigin <- snapToNetwork origin ;;
    snappedDestination <- snapToNetwork destination ;;
    match findPath snappedOrigin snappedDestination with
    | None =>
        console_log (LogString "No route found") ;;;
        ret None
    | Some path =>
        ls <- lift (lineString path) ;;
        let ls := mkLineString (geometry_coordinates ls) (Some units)
                               (properties_length ls) in
        len <- (if String.eqb units "nm"
                then l <- lift (length (geometry_coordinates ls) "miles") ;;
                     ret (JS.mul l nmFactor)
                else lift (length (geometry_coordinates ls) units)) ;;
        ret (Some (mkLineString (geometry_coordinates ls)
                                (properties_units ls) (Some len)))
    end).

(** The console after the two snapping calls of [searoute]. *)
Definition afterSnaps (c : console) (origin destination : Position) : console :=
  (c ++ [LogNumber (fst (nearestLine origin))])
    ++ [LogNumber (fst (nearestLine destination))].

(** The value lines 24-31 produce from a path, read off the body of
    [searoute] without the console (see [searoute_run]). *)
Definition assembled (path : list Position) (units : string)
  : outcome LineStringFeature :=
  match lineString path with
  | Throw e => Throw e
  | Ok ls =>
      let measured :=
        if String.eqb units "nm"
        then match length path "miles" with
             | Ok l => Ok (JS.mul l nmFactor)
             | Throw e => Throw e
             end
        else length path units in
      match measured with
      | Ok len => Ok (mkLineString path (Some units) (Some len))
      | Throw e => Throw e
      end
  end.

End Searoute.

(** The units [length] is called with on lines 27-29: "miles" for "nm",
    the units themselves otherwise. *)
Definition measuredIn (units : string) : string :=
  if String.eqb units "nm" then "miles"%string else units.

(* ================================================================== *)
(** ** A small network to run the code on *)

Module Sample.

Definition pos (lon lat : Z) : Position := (JS.of_Z lon, JS.of_Z lat).

Definition A : Position := pos 0 0.
Definition B : Position := pos 1 0.
Definition C : Position := pos 5 5.
Definition D : Position := pos 6 5.

(** Two lanes: A-B and C-D. *)
Definition marnet : list LineFeature := [[A; B]; [C; D]].

(** Two points off the lanes: one next to C, one next to A. *)
Definition origin : Position := pos 5 4.
Definition destination : Position := pos 0 1.

Definition sub (a b : JS.Number) : JS.Number := SFsub JS.prec JS.emax a b.
Definition add (a b : JS.Number) : JS.Number := SFadd JS.prec JS.emax a b.

(** A stand-in for the distance of two positions, in kilometres:
    111 km per degree along each axis; it is zero from a position to
    itself. *)
Definition rhumbDistance (a b : Position) : JS.Number :=
  JS.mul (JS.of_Z 111)
         (add (SFabs (sub (fst a) (fst b))) (SFabs (sub (snd a) (snd b)))).

Definition min_num (a b : JS.Number) : JS.Number :=
  if JS.lt b a then b else a.

(** A stand-in for the distance to a line: the least distance to one of
    its vertices. *)
Definition pointToLineDistance (p : Position) (f : LineFeature) : JS.Number :=
  fold_left (fun m v => min_num m (rhumbDistance p v)) f
            (S754_infinity false).

(** A path finder that joins two snapped points by the straight line,
    and answers a single vertex when they coincide. *)
Definition findPath (a b : PointFeature) : option (list Position) :=
  match pt_coordinates a, pt_coordinates b with
  | Some x, Some y => if Position_eq_dec x y then Some [y] else Some [x; y]
  | _, _ => None
  end.

(** A path finder that connects the two lanes to nothing but
    themselves. *)
Definition findPath_split (a b : PointFeature) : option (list Position) :=
  match pt_coordinates a, pt_coordinates b with
  | Some x, Some y =>
      if JS.lt (rhumbDistance x y) (JS.of_Z 200) then Some [x; y] else None
  | _, _ => None
  end.

Fixpoint polyline (path : list Position) : JS.Number :=
  match path with
  | a :: (b :: _) as rest => add (rhumbDistance a b) (polyline rest)
  | _ => JS.zero
  end.

Definition known_unit (u : string) : bool :=
  existsb (String.eqb u) ["kilometers"; "miles"; "degrees"; "radians"]%string.

(** A length routine: it refuses a unit it does not know, as Turf does;
    every known unit measures the same here. *)
Definition length (path : list Position) (u : string) : outcome JS.Number :=
  if known_unit u then Ok (polyline path)
  else Throw (Error (u ++ " units is invalid")).

End Sample.

(* ================================================================== *)
(** ** The network as the object it is

    [rhumbDistance] of Turf 6 does not only measure.  It begins with
    [destination[0] += (destination[0] - origin[0] > 180) ? -360 :
    (origin[0] - destination[0] > 180) ? 360 : 0] on the array it is
    given, and line 55 gives it [currentCoord], an array of the network
    itself, which line 59 keeps as [nearestCoord].  It ends in
    [convertLength], which throws on a distance that is NaN.  This second
    reading of [snapToNetwork] keeps the network as a store the call
    rewrites, and lets the measure throw. *)

Definition num_add (a b : JS.Number) : JS.Number := SFadd JS.prec JS.emax a b.
Definition num_sub (a b : JS.Number) : JS.Number := SFsub JS.prec JS.emax a b.

(** The array [destination] after the first statement of
    [rhumbDistance(origin, destination)]. *)
Definition compensate (origin destination : Position) : Position :=
  let shift :=
    if JS.lt (JS.of_Z 180) (num_sub (fst destination) (fst origin))
    then JS.of_Z (-360)
    else if JS.lt (JS.of_Z 180) (num_sub (fst origin) (fst destination))
         then JS.of_Z 360
         else JS.of_Z 0 in
  (num_add (fst destination) shift, snd destination).

(** The network with the feature at index [i] replaced. *)
Fixpoint replace_nth (i : nat) (feature : LineFeature) (network : list LineFeature)
  : list LineFeature :=
  match network, i with
  | [], _ => []
  | _ :: rest, O => feature :: rest
  | f :: rest, S i' => f :: replace_nth i' feature rest
  end.

(** [turfHelpers.point] of @turf/helpers 6.5.0, which the range ^6.1.4
    resolves to: it refuses [null]. *)
Definition point_checked (nearestCoord : option Position) : outcome PointFeature :=
  match nearestCoord with
  | None => Throw (Error "coordinates is required")
  | Some c => Ok (point (Some c))
  end.

Section Aliased.

Variable pointToLineDistance : Position -> LineFeature -> JS.Number.

(** What [rhumbDistance] does after rewriting its destination: the measure
    of [origin] to the rewritten array, in kilometres, or the exception of
    [convertLength]. *)
Variable calculateRhumbDistance : Position -> Position -> outcome JS.Number.

(** The measure as a number, for the calls that do not throw. *)
Definition rhumbValue (origin destination : Position) : JS.Number :=
  match calculateRhumbDistance origin destination with
  | Ok x => x
  | Throw _ => S754_nan
  end.

(** Lines 53-64 on the arrays of a feature: the arrays as the scan leaves
    them, and the state it ends in or the exception that ends it.  A
    vertex is rewritten before it is measured. *)
Fixpoint coordEach_aliased (pt : Position) (feature : LineFeature)
    (st : option JS.Number * option Position)
  : LineFeature * outcome (option JS.Number * option Position) :=
  match feature with
  | [] => ([], Ok st)
  | currentCoord :: rest =>
      let currentCoord' := compensate pt currentCoord in
      match calculateRhumbDistance pt currentCoord' with
      | Throw e => (currentCoord' :: rest, Throw e)
      | Ok distToVertex =>
          let st' := nearestVertex_step (fun _ _ => distToVertex) pt currentCoord' st in
          let '(rest', out) := coordEach_aliased pt rest st' in
          (currentCoord' :: rest', out)
      end
  end.

(** Lines 37-67 on the network as a store: the value or exception of the
    call, the network as the call leaves it, and the console. *)
Definition snapToNetwork_aliased (marnet : list LineFeature) (pt : Position)
    (c : console) : outcome PointFeature * list LineFeature * console :=
  let '(nearestLineIndex, distance) := nearestLine marnet pointToLineDistance pt in
  let c' := c ++ [LogNumber nearestLineIndex] in
  match nth_error marnet nearestLineIndex with
  | None => (Throw TypeError, marnet, c')
  | Some feature =>
      let '(feature', out) := coordEach_aliased pt feature (None, None) in
      let marnet' := replace_nth nearestLineIndex feature' marnet in
      match out with
      | Throw e => (Throw e, marnet', c')
      | Ok (nearestVertexDist, nearestCoord) =>
          (point_checked nearestCoord, marnet', c')
      end
  end.

End Aliased.

(* ------------------------------------------------------------------ *)
(** *** More sample data *)

Module Sample2.

(** A point west of the antimeridian, on the latitude of the lane C-D. *)
Definition W : Position := Sample.pos (-179) 5.

(** The lane C-D alone. *)
Definition east : list LineFeature := [[Sample.C; Sample.D]].

(** The stand-in measure of [Sample], which never throws. *)
Definition calculateRhumbDistance (a b : Position) : outcome JS.Number :=
  Ok (Sample.rhumbDistance a b).

(** The same measure with the check of [convertLength], which refuses a
    distance that is not [>= 0], NaN included. *)
Definition calculateRhumbDistance_checked (a b : Position) : outcome JS.Number :=
  let x := Sample.rhumbDistance a b in
  if JS.le JS.zero x then Ok x
  else Throw (Error "length must be a positive number").

(** Two lanes that meet within the rounding of the path finder: the first
    starts at [0, 0], the second at [0.000001, 0]. *)
Definition A1 : Position := (JS.div (JS.of_Z 1) (JS.of_Z 1000000), JS.of_Z 0).
Definition N : Position := Sample.pos 0 1.
Definition meeting : list LineFeature := [[Sample.A; Sample.B]; [A1; N]].

(** [1, -1] and [-0.5, -0.5]. *)
Definition origin : Position := Sample.pos 1 (-1).
Definition destination : Position :=
  (JS.div (JS.of_Z (-1)) (JS.of_Z 2), JS.div (JS.of_Z (-1)) (JS.of_Z 2)).

(** The vertex geojson-path-finder keeps for a coordinate: it rounds to
    0.00001 and keeps, per rounded key, the vertex it saw last, here
    [0.000001, 0] for [0, 0]. *)
Definition stored (v : Position) : Position :=
  if Position_eq_dec v Sample.A then A1 else v.

(** A path finder on [meeting] that answers with the vertices it keeps. *)
Definition findPath (a b : PointFeature) : option (list Position) :=
  match pt_coordinates a, pt_coordinates b with
  | Some x, Some y => Some [stored x; stored y]
  | _, _ => None
  end.

End Sample2.

(* ================================================================== *)
(** ** Facts on the order of numbers *)

Section NumberOrder.

Import JS.

Lemma key_lt_trans x y z : key_lt x y -> key_lt y z -> key_lt x z.
Proof.
  destruct x as [[a1 b1] c1], y as [[a2 b2] c2], z as [[a3 b3] c3].
  unfold key_lt. lia.
Qed.

Lemma key_le_lt_trans x y z : key_le x y -> key_lt y z -> key_lt x z.
Proof.
  intros [H | ->] Hyz; [eapply key_lt_trans; eauto | exact Hyz].
Qed.

Lemma key_lt_irrefl x : ~ key_lt x x.
Proof. destruct x as [[a b] c]. unfold key_lt. lia. Qed.

Lemma num_lt_key a b :
  lt a b = true <->
  exists x y, key a = Some x /\ key b = Some y /\ key_lt x y.
Proof.
  unfold lt, SFltb, SFcompare.
  destruct a as [sa| [|] | | [|] ma ea], b as [sb| [|] | | [|] mb eb];
    cbn [key]; split;
    try (intros H; discriminate H);
    try (intros (x & y & Hx & Hy & Hlt); discriminate);
    try (intros _; do 2 eexists; repeat split; cbn; lia);
    try (intros (x & y & Hx & Hy & Hlt);
         injection Hx as <-; injection Hy as <-; cbn in Hlt;
         first [ reflexivity | exfalso; lia ]).
  all: try (intros H; do 2 eexists; repeat split; cbn;
            destruct (Z.compare_spec ea eb); try discriminate;
            try lia;
            change (Pos.compare_cont Eq ma mb) with (Pos.compare ma mb) in H;
            destruct (Pos.compare_spec ma mb); try discriminate;
            subst; lia).
  all: intros (x & y & Hx & Hy & Hlt);
    injection Hx as <-; injection Hy as <-; cbn in Hlt;
    destruct (Z.compare_spec ea eb); try reflexivity; try (exfalso; lia);
    change (Pos.compare_cont Eq ma mb) with (Pos.compare ma mb);
    destruct (Pos.compare_spec ma mb); try reflexivity; exfalso; subst; lia.
Qed.

Lemma num_le_key a b :
  le a b = true <->
  exists x y, key a = Some x /\ key b = Some y /\ key_le x y.
Proof.
  unfold le, SFleb, SFcompare, key_le.
  destruct a as [sa| [|] | | [|] ma ea], b as [sb| [|] | | [|] mb eb];
    cbn [key]; split;
    try (intros H; discriminate H);
    try (intros (x & y & Hx & Hy & Hlt); discriminate);
    try (intros _; do 2 eexists; repeat split;
         first [ right; reflexivity | left; cbn; lia ]);
    try (intros (x & y & Hx & Hy & [Hlt | Heq]);
         injection Hx as <-; injection Hy as <-;
         first [ reflexivity
               | exfalso; cbn in Hlt; lia
               | exfalso; injection Heq; intros; lia
               | discriminate Heq ]).
  all: try (intros H; do 2 eexists; repeat split; cbn;
            destruct (Z.compare_spec ea eb); try discriminate;
            try (left; lia);
            change (Pos.compare_cont Eq ma mb) with (Pos.compare ma mb) in H;
            destruct (Pos.compare_spec ma mb); try discriminate;
            subst; first [ right; reflexivity | left; lia ]).
  all: intros (x & y & Hx & Hy & Hle);
    injection Hx as <-; injection Hy as <-;
    destruct (Z.compare_spec ea eb); try reflexivity;
    try (exfalso; destruct Hle as [Hlt | Heq];
         [ cbn in Hlt; lia | injection Heq; intros; lia ]);
    change (Pos.compare_cont Eq ma mb) with (Pos.compare ma mb);
    destruct (Pos.compare_spec ma mb); try reflexivity;
    exfalso; subst; destruct Hle as [Hlt | Heq];
    [ cbn in Hlt; lia | injection Heq; intros; lia ].
Qed.

Lemma num_lt_trans a b c : lt a b = true -> lt b c = true -> lt a c = true.
Proof.
  rewrite !num_lt_key.
  intros (x & y & Hx & Hy & Hxy) (y' & z & Hy' & Hz & Hyz).
  rewrite Hy in Hy'; injection Hy' as <-.
  exists x, z. repeat split; auto. eapply key_lt_trans; eauto.
Qed.

Lemma num_le_lt_trans a b c : le a b = true -> lt b c = true -> lt a c = true.
Proof.
  rewrite num_le_key, !num_lt_key.
  intros (x & y & Hx & Hy & Hxy) (y' & z & Hy' & Hz & Hyz).
  rewrite Hy in Hy'; injection Hy' as <-.
  exists x, z. repeat split; auto. eapply key_le_lt_trans; eauto.
Qed.

Lemma num_lt_irrefl a : lt a a = false.
Proof.
  destruct (lt a a) eqn:E; [| reflexivity].
  apply num_lt_key in E. destruct E as (x & y & Hx & Hy & Hxy).
  rewrite Hx in Hy; injection Hy as <-.
  exfalso; eapply key_lt_irrefl; eauto.
Qed.

End NumberOrder.

(* ================================================================== *)
(** ** Facts on the two scans *)

Section ScanFacts.

Variable marnet : list LineFeature.
Variable pointToLineDistance : Position -> LineFeature -> JS.Number.
Variable rhumbDistance : Position -> Position -> JS.Number.

Local Notation "'lineStep'" := (nearestLine_step pointToLineDistance).
Local Notation "'vertexStep'" := (nearestVertex_step rhumbDistance).
Local Notation "'d'" := pointToLineDistance.

(** The scan over features, from any index and any state: either nothing
    was closer than the starting distance and the state is unchanged, or
    the state holds the first feature of least distance. *)
Lemma featureEach_nearestLine pt (fs : list LineFeature) :
  forall i0 idx dist,
    (featureEach fs (lineStep pt) i0 (idx, dist) = (idx, dist) /\
     forall f, In f fs -> JS.lt (d pt f) dist = false)
    \/
    (exists k f,
        nth_error fs k = Some f /\
        featureEach fs (lineStep pt) i0 (idx, dist) = ((i0 + k)%nat, d pt f) /\
        JS.lt (d pt f) dist = true /\
        (forall g, In g fs -> JS.lt (d pt g) (d pt f) = false) /\
        (forall j g, (j < k)%nat -> nth_error fs j = Some g ->
                     JS.le (d pt g) (d pt f) = false)).
Proof.
  induction fs as [| f rest IH]; intros i0 idx dist.
  - left. split; [reflexivity | intros f []].
  - cbn [featureEach]. unfold nearestLine_step at 2 4.
    destruct (JS.lt (d pt f) dist) eqn:Hf.
    + (* [f] becomes the candidate *)
      right.
      destruct (IH (S i0) i0 (d pt f)) as [[Heq Hrest] | (k & f' & Hk & Heq & Hlt & Hmin & Hfirst)].
      * exists 0%nat, f. rewrite Heq, Nat.add_0_r.
        repeat split; auto.
        -- intros g [<- | Hg]; [apply num_lt_irrefl | auto].
        -- intros j g Hj; lia.
      * exists (S k), f'. rewrite Heq.
        replace (S i0 + k)%nat with (i0 + S k)%nat by lia.
        repeat split; auto.
        -- eapply num_lt_trans; eauto.
        -- intros g [<- | Hg]; [| auto].
           destruct (JS.lt (d pt f) (d pt f')) eqn:E; [| reflexivity].
           pose proof (num_lt_trans _ _ _ E Hlt) as Habs.
           rewrite num_lt_irrefl in Habs; discriminate.
        -- intros [| j] g Hj Hg; cbn in Hg.
           ++ injection Hg as <-.
              destruct (JS.le (d pt f) (d pt f')) eqn:E; [| reflexivity].
              pose proof (num_le_lt_trans _ _ _ E Hlt) as Habs.
              rewrite num_lt_irrefl in Habs; discriminate.
           ++ apply (Hfirst j); [lia | exact Hg].
    + (* the state is kept *)
      destruct (IH (S i0) idx dist) as [[Heq Hrest] | (k & f' & Hk & Heq & Hlt & Hmin & Hfirst)].
      * left. split; [exact Heq |].
        intros g [<- | Hg]; auto.
      * right. exists (S k), f'. rewrite Heq.
        replace (S i0 + k)%nat with (i0 + S k)%nat by lia.
        repeat split; auto.
        -- intros g [<- | Hg]; [| auto].
           destruct (JS.lt (d pt f) (d pt f')) eqn:E; [| reflexivity].
           rewrite (num_lt_trans _ _ _ E Hlt) in Hf; discriminate.
        -- intros [| j] g Hj Hg; cbn in Hg.
           ++ injection Hg as <-.
              destruct (JS.le (d pt f) (d pt f')) eqn:E; [| reflexivity].
              rewrite (num_le_lt_trans _ _ _ E Hlt) in Hf; discriminate.
           ++ apply (Hfirst j); [lia | exact Hg].
Qed.

(** The scan over vertices, from any state: the coordinate it leaves is
    the one it started with or a vertex of the feature, and the distance
    it leaves is the distance of that vertex. *)
Lemma coordEach_nearestVertex pt (feature : LineFeature) :
  forall od oc,
    coordEach feature (vertexStep pt) (od, oc) = (od, oc)
    \/
    exists v, In v feature /\
              coordEach feature (vertexStep pt) (od, oc)
              = (Some (rhumbDistance pt v), Some v).
Proof.
  induction feature as [| v rest IH]; intros od oc.
  - left; reflexivity.
  - cbn [coordEach]. unfold nearestVertex_step at 2 4.
    destruct (JS.not_ od).
    + right.
      destruct (IH (Some (rhumbDistance pt v)) (Some v)) as [-> | (w & Hw & ->)].
      * exists v; split; [left; reflexivity | reflexivity].
      * exists w; split; [right; exact Hw | reflexivity].
    + destruct (JS.lt (rhumbDistance pt v) (JS.toNumber od)).
      * right.
        destruct (IH (Some (rhumbDistance pt v)) (Some v)) as [-> | (w & Hw & ->)].
        -- exists v; split; [left; reflexivity | reflexivity].
        -- exists w; split; [right; exact Hw | reflexivity].
      * destruct (IH od oc) as [-> | (w & Hw & ->)].
        -- left; reflexivity.
        -- right. exists w; split; [right; exact Hw | reflexivity].
Qed.

(** On a feature with a vertex the second scan ends on one of its
    vertices. *)
Lemma nearestVertex_in pt (feature : LineFeature) :
  feature <> [] ->
  exists v, In v feature /\
            nearestVertex rhumbDistance pt feature
            = (Some (rhumbDistance pt v), Some v).
Proof.
  destruct feature as [| v rest]; [congruence | intros _].
  unfold nearestVertex. cbn [coordEach].
  unfold nearestVertex_step at 2. cbn [JS.not_].
  destruct (coordEach_nearestVertex pt rest (Some (rhumbDistance pt v)) (Some v))
    as [-> | (w & Hw & ->)].
  - exists v; split; [left; reflexivity | reflexivity].
  - exists w; split; [right; exact Hw | reflexivity].
Qed.

(** A call of [snapToNetwork] appends the index it fixed to the console
    and returns a value that does not depend on the console. *)
Lemma snapToNetwork_run pt (c : console) :
  snapToNetwork marnet d rhumbDistance pt c
  = (snapped marnet d rhumbDistance pt, c ++ [LogNumber (fst (nearestLine marnet d pt))]).
Proof.
  unfold snapToNetwork, snapped.
  destruct (nearestLine marnet d pt) as [i dist]. cbn [fst].
  unfold bind, console_log.
  destruct (nth_error marnet i) as [feature |]; [| reflexivity].
  destruct (nearestVertex rhumbDistance pt feature) as [nd nc].
  reflexivity.
Qed.

(* ------------------------------------------------------------------ *)
(** *** Phase 1 *)

(** Claim C7: Phase 1 fixes the first feature of least distance: when some
    feature of the network is closer to the point than the radius of 30000,
    the index left by the scan is that of a feature which no feature of the
    network is strictly closer than, and which no earlier feature is as
    close as; this is the feature whose vertices [snapToNetwork] then
    scans. *)
Theorem nearestLine_first_minimum (pt : Position) :
  (exists f, In f marnet /\ JS.lt (d pt f) maxDistance = true) ->
  exists feature,
    nth_error marnet (fst (nearestLine marnet d pt)) = Some feature /\
    snd (nearestLine marnet d pt) = d pt feature /\
    JS.lt (d pt feature) maxDistance = true /\
    (forall g, In g marnet -> JS.lt (d pt g) (d pt feature) = false) /\
    (forall j g, (j < fst (nearestLine marnet d pt))%nat ->
                 nth_error marnet j = Some g ->
                 JS.le (d pt g) (d pt feature) = false) /\
    (forall c, fst (snapToNetwork marnet d rhumbDistance pt c)
               = Ok (point (snd (nearestVertex rhumbDistance pt feature)))).
Proof.
  intros (f & Hin & Hnear).
  unfold nearestLine.
  destruct (featureEach_nearestLine pt marnet 0%nat 0%nat maxDistance)
    as [[_ Hnone] | (k & feature & Hk & Heq & Hlt & Hmin & Hfirst)].
  - rewrite (Hnone f Hin) in Hnear. discriminate.
  - exists feature. rewrite Heq. cbn [fst snd Nat.add].
    repeat split; auto.
    intros c. rewrite snapToNetwork_run. cbn [fst].
    unfold snapped, nearestLine. rewrite Heq. cbn [fst Nat.add].
    rewrite Hk. reflexivity.
Qed.

(** When no feature is closer than the radius, the first scan leaves its
    initial state. *)
Lemma nearestLine_out_of_reach (pt : Position) :
  (forall f, In f marnet -> JS.lt (d pt f) maxDistance = false) ->
  nearestLine marnet d pt = (0%nat, maxDistance).
Proof.
  intros Hfar. unfold nearestLine.
  destruct (featureEach_nearestLine pt marnet 0%nat 0%nat maxDistance)
    as [[Heq _] | (k & feature & Hk & _ & Hlt & _)].
  - exact Heq.
  - apply nth_error_In in Hk. rewrite (Hfar feature Hk) in Hlt. discriminate.
Qed.

(* ------------------------------------------------------------------ *)
(** *** Phase 2 *)

(** A recorded distance that is falsy ([+0], [-0] or [NaN]) is taken for
    the initial [null]: the next vertex replaces it whatever its own
    distance. *)
Lemma nearestVertex_step_falsy pt v d0 oc :
  JS.truthy d0 = false ->
  vertexStep pt v (Some d0, oc) = (Some (rhumbDistance pt v), Some v).
Proof.
  intros H. unfold nearestVertex_step. cbn [JS.not_]. rewrite H. reflexivity.
Qed.

(** Away from falsy distances the second scan behaves as the first: from a
    recorded distance that is truthy, over vertices whose distances are
    truthy, it keeps its state or ends on the first vertex of least
    distance. *)
Lemma coordEach_truthy pt (feature : LineFeature) :
  (forall v, In v feature -> JS.truthy (rhumbDistance pt v) = true) ->
  forall dist cur,
    JS.truthy dist = true ->
    (coordEach feature (vertexStep pt) (Some dist, Some cur) = (Some dist, Some cur) /\
     forall v, In v feature -> JS.lt (rhumbDistance pt v) dist = false)
    \/
    (exists k v,
        nth_error feature k = Some v /\
        coordEach feature (vertexStep pt) (Some dist, Some cur)
        = (Some (rhumbDistance pt v), Some v) /\
        JS.lt (rhumbDistance pt v) dist = true /\
        (forall w, In w feature ->
                   JS.lt (rhumbDistance pt w) (rhumbDistance pt v) = false) /\
        (forall j w, (j < k)%nat -> nth_error feature j = Some w ->
                     JS.le (rhumbDistance pt w) (rhumbDistance pt v) = false)).
Proof.
  induction feature as [| u rest IH]; intros Hall dist cur Hdist.
  - left. split; [reflexivity | intros v []].
  - assert (Hrest : forall v, In v rest -> JS.truthy (rhumbDistance pt v) = true)
      by (intros v Hv; apply Hall; right; exact Hv).
    assert (Hu : JS.truthy (rhumbDistance pt u) = true)
      by (apply Hall; left; reflexivity).
    cbn [coordEach]. unfold nearestVertex_step at 2 4.
    cbn [JS.not_ JS.toNumber]. rewrite Hdist. cbn [negb].
    destruct (JS.lt (rhumbDistance pt u) dist) eqn:Hlt_u.
    + right.
      destruct (IH Hrest (rhumbDistance pt u) u Hu)
        as [[Heq Hno] | (k & v & Hk & Heq & Hlt & Hmin & Hfirst)].
      * exists 0%nat, u. rewrite Heq. repeat split; auto.
        -- intros w [<- | Hw]; [apply num_lt_irrefl | auto].
        -- intros j w Hj; lia.
      * exists (S k), v. rewrite Heq. repeat split; auto.
        -- eapply num_lt_trans; eauto.
        -- intros w [<- | Hw]; [| auto].
           destruct (JS.lt (rhumbDistance pt u) (rhumbDistance pt v)) eqn:E;
             [| reflexivity].
           pose proof (num_lt_trans _ _ _ E Hlt) as Habs.
           rewrite num_lt_irrefl in Habs; discriminate.
        -- intros [| j] w Hj Hw; cbn in Hw.
           ++ injection Hw as <-.
              destruct (JS.le (rhumbDistance pt u) (rhumbDistance pt v)) eqn:E;
                [| reflexivity].
              pose proof (num_le_lt_trans _ _ _ E Hlt) as Habs.
              rewrite num_lt_irrefl in Habs; discriminate.
           ++ apply (Hfirst j); [lia | exact Hw].
    + destruct (IH Hrest dist cur Hdist)
        as [[Heq Hno] | (k & v & Hk & Heq & Hlt & Hmin & Hfirst)].
      * left. split; [exact Heq |]. intros w [<- | Hw]; auto.
      * right. exists (S k), v. rewrite Heq. repeat split; auto.
        -- intros w [<- | Hw]; [| auto].
           destruct (JS.lt (rhumbDistance pt u) (rhumbDistance pt v)) eqn:E;
             [| reflexivity].
           rewrite (num_lt_trans _ _ _ E Hlt) in Hlt_u; discriminate.
        -- intros [| j] w Hj Hw; cbn in Hw.
           ++ injection Hw as <-.
              destruct (JS.le (rhumbDistance pt u) (rhumbDistance pt v)) eqn:E;
                [| reflexivity].
              rewrite (num_le_lt_trans _ _ _ E Hlt) in Hlt_u; discriminate.
           ++ apply (Hfirst j); [lia | exact Hw].
Qed.

(** On a feature none of whose vertices is at a falsy distance, the second
    scan ends on the first vertex of least distance. *)
Lemma nearestVertex_first_minimum pt (feature : LineFeature) :
  feature <> [] ->
  (forall v, In v feature -> JS.truthy (rhumbDistance pt v) = true) ->
  exists k v,
    nth_error feature k = Some v /\
    nearestVertex rhumbDistance pt feature = (Some (rhumbDistance pt v), Some v) /\
    (forall w, In w feature ->
               JS.lt (rhumbDistance pt w) (rhumbDistance pt v) = false) /\
    (forall j w, (j < k)%nat -> nth_error feature j = Some w ->
                 JS.le (rhumbDistance pt w) (rhumbDistance pt v) = false).
Proof.
  destruct feature as [| u rest]; [congruence | intros _ Hall].
  assert (Hrest : forall v, In v rest -> JS.truthy (rhumbDistance pt v) = true)
    by (intros v Hv; apply Hall; right; exact Hv).
  assert (Hu : JS.truthy (rhumbDistance pt u) = true)
    by (apply Hall; left; reflexivity).
  unfold nearestVertex. cbn [coordEach].
  unfold nearestVertex_step at 2. cbn [JS.not_].
  destruct (coordEach_truthy pt rest Hrest (rhumbDistance pt u) u Hu)
    as [[Heq Hno] | (k & v & Hk & Heq & Hlt & Hmin & Hfirst)].
  - exists 0%nat, u. rewrite Heq. repeat split; auto.
    + intros w [<- | Hw]; [apply num_lt_irrefl | auto].
    + intros j w Hj; lia.
  - exists (S k), v. rewrite Heq. repeat split; auto.
    + intros w [<- | Hw]; [| auto].
      destruct (JS.lt (rhumbDistance pt u) (rhumbDistance pt v)) eqn:E;
        [| reflexivity].
      pose proof (num_lt_trans _ _ _ E Hlt) as Habs.
      rewrite num_lt_irrefl in Habs; discriminate.
    + intros [| j] w Hj Hw; cbn in Hw.
      * injection Hw as <-.
        destruct (JS.le (rhumbDistance pt u) (rhumbDistance pt v)) eqn:E;
          [| reflexivity].
        pose proof (num_le_lt_trans _ _ _ E Hlt) as Habs.
        rewrite num_lt_irrefl in Habs; discriminate.
      * apply (Hfirst j); [lia | exact Hw].
Qed.

(** Claim C6: evaluated where the scan departs from the nearest vertex: on a
    feature [a; b] with [a] at distance zero and [b] farther, the second
    scan ends on [b], although [a] comes first and is strictly closer. *)
Theorem nearestVertex_passes_over_zero (pt a b : Position) :
  rhumbDistance pt a = JS.zero ->
  JS.lt JS.zero (rhumbDistance pt b) = true ->
  nearestVertex rhumbDistance pt [a; b] = (Some (rhumbDistance pt b), Some b) /\
  JS.lt (rhumbDistance pt a) (rhumbDistance pt b) = true.
Proof.
  intros Ha Hb. split.
  - unfold nearestVertex. cbn [coordEach].
    unfold nearestVertex_step at 2. cbn [JS.not_].
    apply nearestVertex_step_falsy. rewrite Ha. reflexivity.
  - rewrite Ha. exact Hb.
Qed.

(** Claim C2: evaluated where snapping is not idempotent: when the feature
    fixed for [p] starts at [p] and goes on with other vertices, and [p]
    is at distance zero of itself, [snapToNetwork p] returns one of those
    other vertices. *)
Theorem snapToNetwork_moves_off_first_vertex
    (p : Position) (rest : list Position) (c : console) :
  nth_error marnet (fst (nearestLine marnet d p)) = Some (p :: rest) ->
  rest <> [] ->
  ~ In p rest ->
  JS.truthy (rhumbDistance p p) = false ->
  exists q, In q rest /\ q <> p /\
            fst (snapToNetwork marnet d rhumbDistance p c)
            = Ok (point (Some q)).
Proof.
  intros Hfeat Hrest Hnotin Hzero.
  destruct rest as [| v rest']; [congruence | clear Hrest].
  rewrite snapToNetwork_run. cbn [fst]. unfold snapped. rewrite Hfeat.
  unfold nearestVertex. cbn [coordEach].
  unfold nearestVertex_step at 3. cbn [JS.not_].
  rewrite (nearestVertex_step_falsy p v _ _ Hzero).
  destruct (coordEach_nearestVertex p rest' (Some (rhumbDistance p v)) (Some v))
    as [-> | (w & Hw & ->)]; cbn [snd].
  - exists v. split; [left; reflexivity |].
    split; [| reflexivity].
    intros ->. apply Hnotin. left; reflexivity.
  - exists w. split; [right; exact Hw |].
    split; [| reflexivity].
    intros ->. apply Hnotin. right; exact Hw.
Qed.

End ScanFacts.

(* ================================================================== *)
(** ** Facts on [searoute] *)

Section RouteFacts.

Variable marnet : list LineFeature.
Variable pointToLineDistance : Position -> LineFeature -> JS.Number.
Variable rhumbDistance : Position -> Position -> JS.Number.
Variable findPath : PointFeature -> PointFeature -> option (list Position).
Variable length : list Position -> string -> outcome JS.Number.

Local Notation "'snap'" := (snapToNetwork marnet pointToLineDistance rhumbDistance).
Local Notation "'snapVal'" := (snapped marnet pointToLineDistance rhumbDistance).
Local Notation "'route'" :=
  (searoute marnet pointToLineDistance rhumbDistance findPath length).
Local Notation "'lineOf'" := (fun pt => fst (nearestLine marnet pointToLineDistance pt)).
Local Notation "'logged2'" := (afterSnaps marnet pointToLineDistance).

(** A call of [searoute], step by step. *)
Lemma searoute_run origin destination unitsArg (c : console) :
  route origin destination unitsArg c =
  match snapVal origin with
  | Throw e => (Throw e, c ++ [LogNumber (lineOf origin)])
  | Ok snappedOrigin =>
      match snapVal destination with
      | Throw e => (Throw e, logged2 c origin destination)
      | Ok snappedDestination =>
          match findPath snappedOrigin snappedDestination with
          | None => (Ok None,
                     logged2 c origin destination ++ [LogString "No route found"])
          | Some path =>
              (match assembled length path (defaultUnits unitsArg) with
               | Ok r => Ok (Some r)
               | Throw e => Throw e
               end,
               logged2 c origin destination)
          end
      end
  end.
Proof.
  unfold searoute, try_rethrow, bind, afterSnaps.
  rewrite snapToNetwork_run.
  destruct (snapVal origin) as [so | e]; [| reflexivity].
  rewrite snapToNetwork_run.
  destruct (snapVal destination) as [sd | e]; [| reflexivity].
  destruct (findPath so sd) as [path |]; [| reflexivity].
  unfold assembled, lift, lineString, ret.
  destruct (List.length path <? 2)%nat; [reflexivity |].
  cbn [geometry_coordinates properties_units properties_length].
  destruct (String.eqb (defaultUnits unitsArg) "nm").
  - destruct (length path "miles") as [l | e]; reflexivity.
  - destruct (length path (defaultUnits unitsArg)) as [l | e]; reflexivity.
Qed.

(** What [assembled] returns when it returns. *)
Lemma assembled_Ok path units r :
  assembled length path units = Ok r ->
  (2 <= List.length path)%nat /\
  geometry_coordinates r = path /\
  properties_units r = Some units /\
  exists len,
    properties_length r = Some len /\
    (units = "nm"%string ->
     exists miles, length path "miles" = Ok miles /\ len = JS.mul miles nmFactor) /\
    (units <> "nm"%string -> length path units = Ok len).
Proof.
  unfold assembled, lineString.
  destruct (List.length path <? 2)%nat eqn:Hlen; [discriminate |].
  apply Nat.ltb_ge in Hlen.
  destruct (String.eqb units "nm") eqn:Hnm.
  - apply String.eqb_eq in Hnm.
    destruct (length path "miles") as [miles | e] eqn:Hmiles; [| discriminate].
    intros H; injection H as <-. cbn.
    split; [exact Hlen |]. split; [reflexivity |]. split; [reflexivity |].
    exists (JS.mul miles nmFactor). split; [reflexivity |]. split.
    + intros _. exists miles. split; reflexivity.
    + intros Hne. contradiction.
  - apply String.eqb_neq in Hnm.
    destruct (length path units) as [len | e] eqn:Hlength; [| discriminate].
    intros H; injection H as <-. cbn.
    split; [exact Hlen |]. split; [reflexivity |]. split; [reflexivity |].
    exists len. split; [reflexivity |]. split.
    + intros Heq. contradiction.
    + intros _. reflexivity.
Qed.

(** A call that returns a route went through both snaps and a path. *)
Lemma searoute_Some origin destination unitsArg c r :
  fst (route origin destination unitsArg c) = Ok (Some r) ->
  exists so sd path,
    snapVal origin = Ok so /\ snapVal destination = Ok sd /\
    findPath so sd = Some path /\
    assembled length path (defaultUnits unitsArg) = Ok r.
Proof.
  rewrite searoute_run.
  destruct (snapVal origin) as [so | e]; [| discriminate].
  destruct (snapVal destination) as [sd | e]; [| discriminate].
  destruct (findPath so sd) as [path |] eqn:Hpath; [| discriminate].
  cbn [fst].
  destruct (assembled length path (defaultUnits unitsArg)) as [r' | e] eqn:Hasm;
    [| discriminate].
  intros H; injection H as <-.
  exists so, sd, path. auto.
Qed.

(* ------------------------------------------------------------------ *)
(** *** The outcomes of a call *)

(** A call whose snaps succeed and whose path has two positions or more
    returns what [assembled] makes of the path. *)
Lemma searoute_assembles origin destination unitsArg c so sd path :
  snapVal origin = Ok so ->
  snapVal destination = Ok sd ->
  findPath so sd = Some path ->
  route origin destination unitsArg c
  = (match assembled length path (defaultUnits unitsArg) with
     | Ok r => Ok (Some r)
     | Throw e => Throw e
     end, logged2 c origin destination).
Proof.
  intros Ho Hd Hpath. rewrite searoute_run, Ho, Hd, Hpath. reflexivity.
Qed.

(** Claim C3: evaluated where the route of a point to itself is no route of
    length 0: when both ends snap to the same point and the path finder
    answers a single vertex, [lineString] refuses the path and the call
    throws. *)
Theorem searoute_same_point_throws (p : Position) unitsArg c s v :
  snapVal p = Ok s ->
  findPath s s = Some [v] ->
  fst (route p p unitsArg c)
  = Throw (Error "coordinates must be an array of two or more positions").
Proof.
  intros Hs Hpath.
  rewrite (searoute_assembles p p unitsArg c s s [v] Hs Hs Hpath).
  reflexivity.
Qed.


(** The literal 1.15078 as a binary64 number: the mantissa over 2^52 is
    within half a unit in the last place of 115078/100000. *)
Lemma nmFactor_value :
  nmFactor = S754_finite false 5182652379185419 (-52) /\
  2 * Z.abs (5182652379185419 * 100000 - 115078 * 2 ^ 52) <= 100000.
Proof. split; [vm_compute; reflexivity | vm_compute; discriminate]. Qed.



End RouteFacts.

(* ================================================================== *)
(** ** Runs on the sample network *)

Section SampleRuns.

Import Sample.

Local Notation "'snapS'" := (snapToNetwork marnet pointToLineDistance rhumbDistance).
Local Notation "'snappedS'" := (snapped marnet pointToLineDistance rhumbDistance).
Local Notation "'routeS'" :=
  (searoute marnet pointToLineDistance rhumbDistance findPath length).

Lemma nearestLine_first_minimum_witness :
  (exists f, In f marnet /\
             JS.lt (pointToLineDistance origin f) maxDistance = true) /\
  exists feature,
    nth_error marnet (fst (nearestLine marnet pointToLineDistance origin))
    = Some feature /\
    (forall g, In g marnet ->
               JS.lt (pointToLineDistance origin g)
                     (pointToLineDistance origin feature) = false) /\
    (forall c, fst (snapS origin c)
               = Ok (point (snd (nearestVertex rhumbDistance origin feature)))).
Proof.
  assert (H : exists f, In f marnet /\
                        JS.lt (pointToLineDistance origin f) maxDistance = true).
  { exists [C; D]. split; [right; left; reflexivity | vm_compute; reflexivity]. }
  split; [exact H |].
  destruct (nearestLine_first_minimum marnet pointToLineDistance rhumbDistance
              origin H) as (feature & Hnth & _ & _ & Hmin & _ & Hsnap).
  exists feature. split; [exact Hnth |]. split; [exact Hmin | exact Hsnap].
Defined.

Lemma nearestVertex_passes_over_zero_witness :
  rhumbDistance A A = JS.zero /\
  JS.lt JS.zero (rhumbDistance A B) = true /\
  nearestVertex rhumbDistance A [A; B] = (Some (rhumbDistance A B), Some B) /\
  JS.lt (rhumbDistance A A) (rhumbDistance A B) = true.
Proof.
  split; [vm_compute; reflexivity |].
  split; [vm_compute; reflexivity |].
  apply (nearestVertex_passes_over_zero rhumbDistance A A B);
    vm_compute; reflexivity.
Defined.

Lemma snapToNetwork_moves_off_first_vertex_witness :
  nth_error marnet (fst (nearestLine marnet pointToLineDistance A)) = Some [A; B] /\
  JS.truthy (rhumbDistance A A) = false /\
  exists q, In q [B] /\ q <> A /\ fst (snapS A []) = Ok (point (Some q)).
Proof.
  split; [vm_compute; reflexivity |].
  split; [vm_compute; reflexivity |].
  apply (snapToNetwork_moves_off_first_vertex marnet pointToLineDistance
           rhumbDistance A [B] []).
  - vm_compute; reflexivity.
  - discriminate.
  - intros [H | []]. vm_compute in H. discriminate H.
  - vm_compute; reflexivity.
Defined.

Lemma searoute_same_point_throws_witness :
  snappedS origin = Ok (point (Some C)) /\
  findPath (point (Some C)) (point (Some C)) = Some [C] /\
  fst (routeS origin origin (Some "nm"%string) [])
  = Throw (Error "coordinates must be an array of two or more positions").
Proof.
  split; [vm_compute; reflexivity |].
  split; [vm_compute; reflexivity |].
  apply (searoute_same_point_throws marnet pointToLineDistance rhumbDistance
           findPath length origin (Some "nm"%string) [] (point (Some C)) C);
    vm_compute; reflexivity.
Defined.




End SampleRuns.

(* ================================================================== *)
(** ** Further facts on [snapToNetwork] *)

Section MoreScanFacts.

Variable marnet : list LineFeature.
Variable pointToLineDistance : Position -> LineFeature -> JS.Number.
Variable rhumbDistance : Position -> Position -> JS.Number.

Local Notation "'lineStep'" := (nearestLine_step pointToLineDistance).
Local Notation "'vertexStep'" := (nearestVertex_step rhumbDistance).
Local Notation "'d'" := pointToLineDistance.
Local Notation "'r'" := rhumbDistance.
Local Notation "'snap'" := (snapToNetwork marnet pointToLineDistance rhumbDistance).
Local Notation "'fixed'" := (fun pt => fst (nearestLine marnet pointToLineDistance pt)).

(** The two iterators go through a concatenation part by part. *)
Lemma featureEach_app {St} (fs gs : list LineFeature)
    (callback : LineFeature -> nat -> St -> St) :
  forall i st,
    featureEach (fs ++ gs) callback i st
    = featureEach gs callback (i + List.length fs)%nat (featureEach fs callback i st).
Proof.
  induction fs as [| f fs IH]; intros i st; cbn.
  - rewrite Nat.add_0_r. reflexivity.
  - rewrite IH. f_equal. lia.
Qed.

Lemma coordEach_app {St} (xs ys : LineFeature)
    (callback : Position -> St -> St) :
  forall st,
    coordEach (xs ++ ys) callback st
    = coordEach ys callback (coordEach xs callback st).
Proof.
  induction xs as [| x xs IH]; intros st; cbn; [reflexivity | apply IH].
Qed.

(** On a network with a feature, the index the first scan leaves is the
    index of a feature. *)
Lemma nearestLine_index_bound (pt : Position) :
  marnet <> [] -> (fixed pt < List.length marnet)%nat.
Proof.
  intros Hne. unfold nearestLine.
  destruct (featureEach_nearestLine pointToLineDistance pt marnet 0%nat 0%nat maxDistance)
    as [[Heq _] | (k & f & Hk & Heq & _)]; rewrite Heq; cbn [fst].
  - destruct marnet; [congruence | cbn; lia].
  - cbn. apply nth_error_Some. rewrite Hk. discriminate.
Qed.

(** A coordinate the second scan leaves is a vertex of the feature. *)
Lemma nearestVertex_snd_in pt (feature : LineFeature) v :
  snd (nearestVertex rhumbDistance pt feature) = Some v -> In v feature.
Proof.
  unfold nearestVertex.
  destruct (coordEach_nearestVertex rhumbDistance pt feature None None)
    as [-> | (w & Hw & ->)]; cbn [snd]; intros H.
  - discriminate.
  - injection H as <-. exact Hw.
Qed.

(* ------------------------------------------------------------------ *)
(** *** Vertices at a falsy distance *)

(** A zero is below every truthy number that is not negative. *)
Lemma num_zero_lt_positive (z x : JS.Number) :
  JS.truthy z = false -> JS.le JS.zero z = true ->
  JS.truthy x = true -> JS.le JS.zero x = true ->
  JS.lt z x = true.
Proof.
  destruct z as [sz | sz | | sz mz ez], x as [sx | sx | | [|] mx ex];
    try discriminate; try reflexivity;
    destruct sx; try discriminate; reflexivity.
Qed.

(** From the initial state, or from a recorded distance that is falsy,
    a run of vertices at falsy distances ends on its last vertex. *)
Lemma coordEach_falsy_run pt (pre : list Position) (z : Position) :
  (forall v, In v (pre ++ [z]) -> JS.truthy (r pt v) = false) ->
  forall od oc,
    JS.not_ od = true ->
    coordEach (pre ++ [z]) (vertexStep pt) (od, oc) = (Some (r pt z), Some z).
Proof.
  induction pre as [| u pre IH]; intros Hall od oc Hod; cbn [app coordEach].
  - unfold nearestVertex_step. rewrite Hod. reflexivity.
  - unfold nearestVertex_step at 2. rewrite Hod.
    apply IH.
    + intros v Hv. apply Hall. right. exact Hv.
    + cbn [JS.not_]. rewrite (Hall u (or_introl eq_refl)). reflexivity.
Qed.

(** X4: when every vertex of a feature is at a falsy distance (as zero
    is, when every vertex coincides with the point), the second scan ends
    on the last vertex of the feature. *)
Theorem nearestVertex_all_falsy_last pt (pre : list Position) (z : Position) :
  (forall v, In v (pre ++ [z]) -> JS.truthy (r pt v) = false) ->
  nearestVertex rhumbDistance pt (pre ++ [z]) = (Some (r pt z), Some z).
Proof.
  intros Hall. unfold nearestVertex.
  apply coordEach_falsy_run; [exact Hall | reflexivity].
Qed.

(** With distances that are not negative, the scan is on a vertex at
    distance zero right after it has seen it. *)
Lemma coordEach_reaches_zero pt (pre : list Position) (z : Position) :
  (forall v, In v pre -> JS.le JS.zero (r pt v) = true) ->
  JS.truthy (r pt z) = false ->
  JS.le JS.zero (r pt z) = true ->
  coordEach (pre ++ [z]) (vertexStep pt) (None, None) = (Some (r pt z), Some z).
Proof.
  intros Hpre Hz0 Hz.
  rewrite coordEach_app. cbn [coordEach].
  destruct (coordEach_nearestVertex rhumbDistance pt pre None None)
    as [-> | (w & Hw & ->)].
  - reflexivity.
  - unfold nearestVertex_step. cbn [JS.not_ JS.toNumber].
    destruct (JS.truthy (r pt w)) eqn:Hw1; cbn [negb]; [| reflexivity].
    rewrite (num_zero_lt_positive _ _ Hz0 Hz Hw1 (Hpre w Hw)). reflexivity.
Qed.

(** X5: with distances that are not negative, the second scan forgets a
    vertex at distance zero and all vertices before it as soon as another
    vertex follows: it ends as the scan of the following vertices alone
    does. *)
Theorem nearestVertex_forgets_up_to_zero pt (pre post : list Position) (z : Position) :
  (forall v, In v pre -> JS.le JS.zero (r pt v) = true) ->
  JS.truthy (r pt z) = false ->
  JS.le JS.zero (r pt z) = true ->
  post <> [] ->
  nearestVertex rhumbDistance pt (pre ++ z :: post)
  = nearestVertex rhumbDistance pt post.
Proof.
  intros Hpre Hz0 Hz Hpost.
  destruct post as [| u post']; [congruence | clear Hpost].
  unfold nearestVertex.
  change (pre ++ z :: u :: post') with (pre ++ [z] ++ u :: post').
  rewrite app_assoc, coordEach_app.
  rewrite (coordEach_reaches_zero pt pre z Hpre Hz0 Hz).
  cbn [coordEach].
  rewrite (nearestVertex_step_falsy rhumbDistance pt u _ _ Hz0).
  reflexivity.
Qed.

(** X6: snapping is idempotent on the last vertex of a feature: when the
    feature fixed for [p] ends on [p], [p] is at distance zero of itself
    and the distances to the other vertices are not negative,
    [snapToNetwork p] returns [p]. *)
Theorem snapToNetwork_last_vertex_fixed (p : Position) (pre : list Position) c :
  nth_error marnet (fixed p) = Some (pre ++ [p]) ->
  (forall v, In v pre -> JS.le JS.zero (r p v) = true) ->
  JS.truthy (r p p) = false ->
  JS.le JS.zero (r p p) = true ->
  fst (snap p c) = Ok (point (Some p)).
Proof.
  intros Hfeat Hpre Hz0 Hz.
  rewrite snapToNetwork_run. cbn [fst]. unfold snapped. rewrite Hfeat.
  unfold nearestVertex.
  rewrite (coordEach_reaches_zero p pre p Hpre Hz0 Hz). reflexivity.
Qed.


End MoreScanFacts.

(* ------------------------------------------------------------------ *)
(** *** Networks that grow *)

Section GrowingNetwork.

Variable pointToLineDistance : Position -> LineFeature -> JS.Number.
Variable rhumbDistance : Position -> Position -> JS.Number.

Local Notation "'d'" := pointToLineDistance.

(** Features none of which is strictly closer than the recorded distance
    leave the state of the first scan as it is. *)
Lemma featureEach_farther pt (gs : list LineFeature) i idx dist :
  (forall g, In g gs -> JS.lt (d pt g) dist = false) ->
  featureEach gs (nearestLine_step d pt) i (idx, dist) = (idx, dist).
Proof.
  intros Hfar.
  destruct (featureEach_nearestLine d pt gs i idx dist)
    as [[Heq _] | (k & f & Hk & _ & Hlt & _)].
  - exact Heq.
  - apply nth_error_In in Hk. rewrite (Hfar f Hk) in Hlt. discriminate.
Qed.

(** X7: features appended to a network with a feature do not change what
    [snapToNetwork] does for a point, as long as none of them is strictly
    closer to the point than the distance the first scan recorded. *)
Theorem snapToNetwork_app_farther (marnet extra : list LineFeature)
    (pt : Position) (c : console) :
  marnet <> [] ->
  (forall g, In g extra ->
             JS.lt (d pt g) (snd (nearestLine marnet d pt)) = false) ->
  snapToNetwork (marnet ++ extra) d rhumbDistance pt c
  = snapToNetwork marnet d rhumbDistance pt c.
Proof.
  intros Hne Hfar.
  assert (Hline : nearestLine (marnet ++ extra) d pt = nearestLine marnet d pt).
  { unfold nearestLine at 1. rewrite featureEach_app.
    fold (nearestLine marnet d pt).
    destruct (nearestLine marnet d pt) as [idx dist] eqn:E.
    apply featureEach_farther. exact Hfar. }
  rewrite !snapToNetwork_run. unfold snapped. rewrite Hline.
  rewrite nth_error_app1 by (apply nearestLine_index_bound; exact Hne).
  reflexivity.
Qed.

End GrowingNetwork.

(* ================================================================== *)
(** ** Further facts on [searoute] *)

Section MoreRouteFacts.

Variable marnet : list LineFeature.
Variable pointToLineDistance : Position -> LineFeature -> JS.Number.
Variable rhumbDistance : Position -> Position -> JS.Number.
Variable findPath : PointFeature -> PointFeature -> option (list Position).
Variable length : list Position -> string -> outcome JS.Number.

Local Notation "'snapVal'" := (snapped marnet pointToLineDistance rhumbDistance).
Local Notation "'route'" :=
  (searoute marnet pointToLineDistance rhumbDistance findPath length).
Local Notation "'logged2'" := (afterSnaps marnet pointToLineDistance).





(** X11: on one path the units "nm" and "miles" agree up to the factor:
    when lines 24-31 make a route of a path with the units "miles", they
    make one of the same path with the units "nm", and its length is the
    length in miles times the number 1.15078. *)
Theorem assembled_nm_of_miles (path : list Position) rm :
  assembled length path "miles" = Ok rm ->
  exists miles,
    properties_length rm = Some miles /\
    assembled length path "nm"
    = Ok (mkLineString path (Some "nm"%string) (Some (JS.mul miles nmFactor))).
Proof.
  intros Hasm.
  destruct (assembled_Ok _ _ _ _ Hasm)
    as (Hlen & _ & _ & miles & Hl & _ & Hmiles).
  specialize (Hmiles ltac:(discriminate)).
  exists miles. split; [exact Hl |].
  unfold assembled, lineString.
  apply Nat.ltb_ge in Hlen. rewrite Hlen.
  replace (String.eqb "nm" "nm") with true by reflexivity.
  rewrite Hmiles. reflexivity.
Qed.

End MoreRouteFacts.

(* ================================================================== *)
(** ** Further runs on the sample network *)

Section MoreSampleRuns.

Import Sample.

Local Notation "'snapS'" := (snapToNetwork marnet pointToLineDistance rhumbDistance).
Local Notation "'routeS'" :=
  (searoute marnet pointToLineDistance rhumbDistance findPath length).

Lemma nearestVertex_forgets_up_to_zero_witness :
  (forall v, In v [B] -> JS.le JS.zero (rhumbDistance A v) = true) /\
  JS.truthy (rhumbDistance A A) = false /\
  JS.le JS.zero (rhumbDistance A A) = true /\
  nearestVertex rhumbDistance A ([B] ++ A :: [C; D])
  = nearestVertex rhumbDistance A [C; D].
Proof.
  assert (H : forall v, In v [B] -> JS.le JS.zero (rhumbDistance A v) = true).
  { intros v [<- | []]; vm_compute; reflexivity. }
  split; [exact H |].
  split; [vm_compute; reflexivity |].
  split; [vm_compute; reflexivity |].
  apply (nearestVertex_forgets_up_to_zero rhumbDistance A [B] [C; D] A H).
  - vm_compute; reflexivity.
  - vm_compute; reflexivity.
  - discriminate.
Defined.

Lemma snapToNetwork_last_vertex_fixed_witness :
  nth_error marnet (fst (nearestLine marnet pointToLineDistance B))
  = Some ([A] ++ [B]) /\
  JS.truthy (rhumbDistance B B) = false /\
  fst (snapS B []) = Ok (point (Some B)).
Proof.
  split; [vm_compute; reflexivity |].
  split; [vm_compute; reflexivity |].
  apply (snapToNetwork_last_vertex_fixed marnet pointToLineDistance
           rhumbDistance B [A] []).
  - vm_compute; reflexivity.
  - intros v [<- | []]; vm_compute; reflexivity.
  - vm_compute; reflexivity.
  - vm_compute; reflexivity.
Defined.


Lemma snapToNetwork_app_farther_witness :
  [[C; D]] <> [] /\
  (forall g, In g [[A; B]] ->
             JS.lt (pointToLineDistance origin g)
                   (snd (nearestLine [[C; D]] pointToLineDistance origin)) = false) /\
  snapToNetwork ([[C; D]] ++ [[A; B]]) pointToLineDistance rhumbDistance origin []
  = snapToNetwork [[C; D]] pointToLineDistance rhumbDistance origin [].
Proof.
  assert (H : forall g, In g [[A; B]] ->
              JS.lt (pointToLineDistance origin g)
                    (snd (nearestLine [[C; D]] pointToLineDistance origin)) = false).
  { intros g [<- | []]; vm_compute; reflexivity. }
  split; [discriminate |]. split; [exact H |].
  apply (snapToNetwork_app_farther pointToLineDistance rhumbDistance
           [[C; D]] [[A; B]] origin []); [discriminate | exact H].
Defined.



End MoreSampleRuns.

(* ================================================================== *)
(** ** Facts on the network as a store *)

Section AliasedFacts.

Variable pointToLineDistance : Position -> LineFeature -> JS.Number.
Variable calculateRhumbDistance : Position -> Position -> outcome JS.Number.

Local Notation "'d'" := pointToLineDistance.
Local Notation "'measure'" := calculateRhumbDistance.
Local Notation "'rv'" := (rhumbValue calculateRhumbDistance).
Local Notation "'scan'" := (coordEach_aliased calculateRhumbDistance).
Local Notation "'snapA'" :=
  (snapToNetwork_aliased pointToLineDistance calculateRhumbDistance).
Local Notation "'fixed'" := (fun marnet pt => fst (nearestLine marnet pointToLineDistance pt)).

Lemma nearestVertex_step_measured pt v x st :
  measure pt v = Ok x ->
  nearestVertex_step (fun _ _ => x) pt v st = nearestVertex_step rv pt v st.
Proof.
  intros H. unfold nearestVertex_step, rhumbValue. rewrite H. reflexivity.
Qed.

(** A scan that ends without an exception has rewritten every vertex, and
    ends as the scan of lines 53-64 on the rewritten vertices does. *)
Lemma coordEach_aliased_Ok pt (feature : LineFeature) :
  forall st feature' st',
    scan pt feature st = (feature', Ok st') ->
    feature' = map (compensate pt) feature /\
    st' = coordEach feature' (nearestVertex_step rv pt) st.
Proof.
  induction feature as [| v rest IH]; intros st feature' st' H; cbn in H.
  - injection H as <- <-. split; reflexivity.
  - destruct (measure pt (compensate pt v)) as [x | e] eqn:Hx; [| discriminate].
    destruct (scan pt rest (nearestVertex_step (fun _ _ => x) pt (compensate pt v) st))
      as [rest' out] eqn:Hrest.
    injection H as <- ->.
    destruct (IH _ _ _ Hrest) as [-> ->].
    split; [reflexivity |].
    cbn [map coordEach]. rewrite (nearestVertex_step_measured _ _ _ _ Hx).
    reflexivity.
Qed.

(** A scan that ends with an exception has it from the measure of a
    vertex it had just rewritten. *)
Lemma coordEach_aliased_Throw pt (feature : LineFeature) :
  forall st feature' e,
    scan pt feature st = (feature', Throw e) ->
    exists v, In v feature /\ measure pt (compensate pt v) = Throw e.
Proof.
  induction feature as [| v rest IH]; intros st feature' e H; cbn in H.
  - discriminate.
  - destruct (measure pt (compensate pt v)) as [x | e'] eqn:Hx.
    + destruct (scan pt rest (nearestVertex_step (fun _ _ => x) pt (compensate pt v) st))
        as [rest' out] eqn:Hrest.
      injection H as _ ->.
      destruct (IH _ _ _ Hrest) as (w & Hw & Hthrow).
      exists w. split; [right; exact Hw | exact Hthrow].
    + injection H as _ <-. exists v. split; [left; reflexivity | exact Hx].
Qed.

(** A scan whose measures all answer ends without an exception. *)
Lemma coordEach_aliased_total pt (feature : LineFeature) :
  (forall v, In v feature -> exists x, measure pt (compensate pt v) = Ok x) ->
  forall st,
    scan pt feature st
    = (map (compensate pt) feature,
       Ok (coordEach (map (compensate pt) feature) (nearestVertex_step rv pt) st)).
Proof.
  induction feature as [| v rest IH]; intros Hall st; cbn.
  - reflexivity.
  - destruct (Hall v (or_introl eq_refl)) as [x Hx]. rewrite Hx.
    rewrite IH by (intros w Hw; apply Hall; right; exact Hw).
    rewrite (nearestVertex_step_measured _ _ _ _ Hx). reflexivity.
Qed.

Lemma nth_error_replace_nth (network : list LineFeature) :
  forall i f feature,
    nth_error network i = Some f ->
    nth_error (replace_nth i feature network) i = Some feature.
Proof.
  induction network as [| g rest IH]; intros [| i] f feature H; cbn in *;
    try discriminate; [reflexivity | eapply IH; exact H].
Qed.

Lemma replace_nth_same (network : list LineFeature) :
  forall i f, nth_error network i = Some f -> replace_nth i f network = network.
Proof.
  induction network as [| g rest IH]; intros [| i] f H; cbn in *;
    try discriminate.
  - injection H as ->. reflexivity.
  - f_equal. apply IH. exact H.
Qed.

(** A call that returns, read off the scan. *)
Lemma snapToNetwork_aliased_Ok marnet pt c feature res :
  nth_error marnet (fixed marnet pt) = Some feature ->
  fst (fst (snapA marnet pt c)) = Ok res ->
  snd (fst (snapA marnet pt c))
  = replace_nth (fixed marnet pt) (map (compensate pt) feature) marnet /\
  exists v, In v feature /\ res = point (Some (compensate pt v)).
Proof.
  unfold snapToNetwork_aliased.
  destruct (nearestLine marnet d pt) as [i dist]. cbn [fst].
  intros Hfeat. rewrite Hfeat.
  destruct (scan pt feature (None, None)) as [feature' out] eqn:Hscan.
  destruct out as [[nd nc] | e]; cbn [fst snd]; [| discriminate].
  destruct (coordEach_aliased_Ok _ _ _ _ _ Hscan) as [-> Hst].
  intros Hres. split; [reflexivity |].
  destruct nc as [v' |]; [| discriminate].
  injection Hres as <-.
  assert (Hin : In v' (map (compensate pt) feature)).
  { apply (nearestVertex_snd_in rv pt). unfold nearestVertex.
    rewrite <- Hst. reflexivity. }
  apply in_map_iff in Hin. destruct Hin as (v & <- & Hv).
  exists v. split; [exact Hv | reflexivity].
Qed.

Lemma map_fixes {A} (f : A -> A) (l : list A) :
  map f l = l -> forall v, In v l -> f v = v.
Proof.
  induction l as [| a l IH]; intros H v Hv; [destruct Hv |].
  cbn in H. injection H as Ha Hl.
  destruct Hv as [<- | Hv]; [exact Ha | apply IH; assumption].
Qed.

(** Claim C9: evaluated where snapping is no function of its arguments and
    the network alone, for it writes to the network: when a vertex of the
    feature fixed for a point is one that [rhumbDistance] rewrites, a call
    that returns leaves a network other than the one it was given, with
    every vertex of that feature rewritten, and the point it returns is on
    a rewritten vertex.  The next call, with the same arguments or others,
    starts from that other network. *)
Theorem snapToNetwork_aliased_rewrites_network
    marnet (pt : Position) c (feature : LineFeature) (v : Position) res :
  nth_error marnet (fixed marnet pt) = Some feature ->
  In v feature ->
  compensate pt v <> v ->
  fst (fst (snapA marnet pt c)) = Ok res ->
  snd (fst (snapA marnet pt c)) <> marnet /\
  nth_error (snd (fst (snapA marnet pt c))) (fixed marnet pt)
  = Some (map (compensate pt) feature) /\
  exists w, In w feature /\ res = point (Some (compensate pt w)).
Proof.
  intros Hfeat Hv Hmoved Hres.
  destruct (snapToNetwork_aliased_Ok marnet pt c feature res Hfeat Hres)
    as [Hnet Hret].
  assert (Hnth : nth_error (snd (fst (snapA marnet pt c))) (fixed marnet pt)
                 = Some (map (compensate pt) feature)).
  { rewrite Hnet. eapply nth_error_replace_nth. exact Hfeat. }
  split; [| split; [exact Hnth | exact Hret]].
  intros Heq. rewrite Heq, Hfeat in Hnth. injection Hnth as Hmap.
  apply Hmoved. apply (map_fixes _ _ (eq_sym Hmap)). exact Hv.
Qed.

(** X1: a coordinate [snapToNetwork] returns is the rewritten form of a
    vertex of the feature whose index the call logged, and it is a vertex
    of that feature in the network as the call leaves it. *)
Theorem snapToNetwork_aliased_returns_stored_vertex
    marnet (pt v' : Position) c :
  fst (fst (snapA marnet pt c)) = Ok (point (Some v')) ->
  exists feature v feature',
    nth_error marnet (fixed marnet pt) = Some feature /\
    In v feature /\ v' = compensate pt v /\
    nth_error (snd (fst (snapA marnet pt c))) (fixed marnet pt) = Some feature' /\
    In v' feature' /\
    snd (snapA marnet pt c) = c ++ [LogNumber (fixed marnet pt)].
Proof.
  intros Hres.
  destruct (nth_error marnet (fixed marnet pt)) as [feature |] eqn:Hfeat.
  - destruct (snapToNetwork_aliased_Ok marnet pt c feature _ Hfeat Hres)
      as [Hnet (v & Hv & Hpoint)].
    injection Hpoint as ->.
    exists feature, v, (map (compensate pt) feature).
    split; [reflexivity |]. split; [exact Hv |]. split; [reflexivity |].
    split; [rewrite Hnet; eapply nth_error_replace_nth; exact Hfeat |].
    split; [apply in_map; exact Hv |].
    unfold snapToNetwork_aliased.
    destruct (nearestLine marnet d pt) as [i dist]. cbn [fst] in Hfeat.
    rewrite Hfeat.
    destruct (scan pt feature (None, None)) as [feature' [[nd nc] | e]];
      reflexivity.
  - exfalso. revert Hres. unfold snapToNetwork_aliased.
    destruct (nearestLine marnet d pt) as [i dist]. cbn [fst] in Hfeat.
    rewrite Hfeat. discriminate.
Qed.


(** X15: away from the antimeridian the two readings agree: when
    [rhumbDistance] rewrites no vertex of the fixed feature, which has a
    vertex, and throws on none, the call leaves the network as it is and
    returns and logs what [snapToNetwork] with the measure as a function
    does. *)
Theorem snapToNetwork_aliased_agrees marnet (pt : Position) c (feature : LineFeature) :
  nth_error marnet (fixed marnet pt) = Some feature ->
  feature <> [] ->
  (forall v, In v feature ->
             compensate pt v = v /\ exists x, measure pt v = Ok x) ->
  snapA marnet pt c
  = (fst (snapToNetwork marnet d rv pt c), marnet,
     snd (snapToNetwork marnet d rv pt c)).
Proof.
  intros Hfeat Hne Hall.
  rewrite snapToNetwork_run. cbn [fst snd].
  unfold snapToNetwork_aliased, snapped.
  destruct (nearestLine marnet d pt) as [i dist] eqn:Hline.
  cbn [fst] in *. rewrite ?Hline in Hfeat. cbn [fst] in Hfeat.
  rewrite Hfeat.
  assert (Hmap : map (compensate pt) feature = feature).
  { rewrite <- (map_id feature) at 2. apply map_ext_in.
    intros v Hv. apply Hall. exact Hv. }
  rewrite coordEach_aliased_total.
  - rewrite Hmap, (replace_nth_same _ _ _ Hfeat).
    destruct (nearestVertex_in rv pt feature Hne) as (w & _ & Hw).
    rewrite Hw. unfold nearestVertex in Hw. rewrite Hw. reflexivity.
  - intros v Hv. destruct (Hall v Hv) as [-> Hx]. exact Hx.
Qed.

(** Claim C1: evaluated where no feature is within the radius: the first
    scan raises nothing and leaves its initial index 0; the call logs 0
    and is the scan of the vertices of the first feature, whose point or
    whose exception it returns.  No condition of its own tells the caller
    that nothing was within the radius. *)
Theorem snapToNetwork_aliased_out_of_reach
    marnet (pt : Position) c (f0 : LineFeature) (rest : list LineFeature) :
  marnet = f0 :: rest ->
  (forall f, In f marnet -> JS.lt (d pt f) maxDistance = false) ->
  nearestLine marnet d pt = (0%nat, maxDistance) /\
  exists f0' out,
    scan pt f0 (None, None) = (f0', out) /\
    snapA marnet pt c
    = (match out with
       | Throw e => Throw e
       | Ok (_, nearestCoord) => point_checked nearestCoord
       end, f0' :: rest, c ++ [LogNumber 0]).
Proof.
  intros Hnet Hfar.
  pose proof (nearestLine_out_of_reach marnet d pt Hfar) as Hline.
  split; [exact Hline |].
  destruct (scan pt f0 (None, None)) as [f0' out] eqn:Hscan.
  exists f0', out. split; [reflexivity |].
  unfold snapToNetwork_aliased. rewrite Hline. rewrite Hnet. cbn [nth_error].
  rewrite Hscan. destruct out as [[nd nc] | e]; reflexivity.
Qed.

End AliasedFacts.

(* ================================================================== *)
(** ** Runs on the network as a store, and on the lanes that meet *)

Section StoreRuns.

Import Sample.

Local Notation "'nanPoint'" := (S754_nan, S754_nan).
Local Notation "'snapChecked'" :=
  (snapToNetwork_aliased pointToLineDistance Sample2.calculateRhumbDistance_checked).
Local Notation "'snapStore'" :=
  (snapToNetwork_aliased pointToLineDistance Sample2.calculateRhumbDistance).

Lemma snapToNetwork_aliased_out_of_reach_witness :
  (forall f, In f marnet ->
             JS.lt (pointToLineDistance nanPoint f) maxDistance = false) /\
  nearestLine marnet pointToLineDistance nanPoint = (0%nat, maxDistance) /\
  snapChecked marnet nanPoint []
  = (Throw (Error "length must be a positive number"), marnet, [LogNumber 0]).
Proof.
  assert (H : forall f, In f marnet ->
                        JS.lt (pointToLineDistance nanPoint f) maxDistance = false).
  { intros f [<- | [<- | []]]; vm_compute; reflexivity. }
  split; [exact H |].
  destruct (snapToNetwork_aliased_out_of_reach pointToLineDistance
              Sample2.calculateRhumbDistance_checked marnet nanPoint []
              [A; B] [[C; D]] eq_refl H)
    as [Hline (f0' & out & Hscan & Hcall)].
  split; [exact Hline |].
  rewrite Hcall. revert Hscan. vm_compute.
  intros Hscan. injection Hscan as <- <-. reflexivity.
Defined.

Lemma snapToNetwork_aliased_rewrites_network_witness :
  nth_error Sample2.east
            (fst (nearestLine Sample2.east pointToLineDistance Sample2.W))
  = Some [C; D] /\
  compensate Sample2.W C = pos (-355) 5 /\
  fst (fst (snapStore Sample2.east Sample2.W [])) = Ok (point (Some (pos (-354) 5))) /\
  snd (fst (snapStore Sample2.east Sample2.W [])) <> Sample2.east /\
  nth_error (snd (fst (snapStore Sample2.east Sample2.W [])))
            (fst (nearestLine Sample2.east pointToLineDistance Sample2.W))
  = Some (map (compensate Sample2.W) [C; D]).
Proof.
  split; [vm_compute; reflexivity |].
  split; [vm_compute; reflexivity |].
  split; [vm_compute; reflexivity |].
  destruct (snapToNetwork_aliased_rewrites_network pointToLineDistance
              Sample2.calculateRhumbDistance Sample2.east Sample2.W []
              [C; D] C (point (Some (pos (-354) 5))))
    as (Hne & Hnth & _).
  - vm_compute; reflexivity.
  - left; reflexivity.
  - vm_compute. discriminate.
  - vm_compute; reflexivity.
  - split; [exact Hne | exact Hnth].
Defined.

Lemma snapToNetwork_aliased_returns_stored_vertex_witness :
  fst (fst (snapStore Sample2.east Sample2.W [])) = Ok (point (Some (pos (-354) 5))) /\
  exists feature v feature',
    nth_error Sample2.east
              (fst (nearestLine Sample2.east pointToLineDistance Sample2.W))
    = Some feature /\
    In v feature /\ pos (-354) 5 = compensate Sample2.W v /\
    nth_error (snd (fst (snapStore Sample2.east Sample2.W [])))
              (fst (nearestLine Sample2.east pointToLineDistance Sample2.W))
    = Some feature' /\
    In (pos (-354) 5) feature' /\
    snd (snapStore Sample2.east Sample2.W [])
    = [] ++ [LogNumber (fst (nearestLine Sample2.east pointToLineDistance Sample2.W))].
Proof.
  split; [vm_compute; reflexivity |].
  apply (snapToNetwork_aliased_returns_stored_vertex pointToLineDistance
           Sample2.calculateRhumbDistance Sample2.east Sample2.W (pos (-354) 5) []).
  vm_compute; reflexivity.
Defined.


Lemma snapToNetwork_aliased_agrees_witness :
  nth_error marnet (fst (nearestLine marnet pointToLineDistance origin))
  = Some [C; D] /\
  (forall v, In v [C; D] ->
             compensate origin v = v /\
             exists x, Sample2.calculateRhumbDistance origin v = Ok x) /\
  snapStore marnet origin []
  = (fst (snapToNetwork marnet pointToLineDistance
                        (rhumbValue Sample2.calculateRhumbDistance) origin []),
     marnet,
     snd (snapToNetwork marnet pointToLineDistance
                        (rhumbValue Sample2.calculateRhumbDistance) origin [])).
Proof.
  assert (H : forall v, In v [C; D] ->
                        compensate origin v = v /\
                        exists x, Sample2.calculateRhumbDistance origin v = Ok x).
  { intros v [<- | [<- | []]];
      (split; [vm_compute; reflexivity | eexists; reflexivity]). }
  split; [vm_compute; reflexivity |]. split; [exact H |].
  apply (snapToNetwork_aliased_agrees pointToLineDistance
           Sample2.calculateRhumbDistance marnet origin [] [C; D]).
  - vm_compute; reflexivity.
  - discriminate.
  - exact H.
Defined.

Lemma nearestVertex_all_falsy_last_witness :
  (forall v, In v ([A] ++ [A]) -> JS.truthy (rhumbDistance A v) = false) /\
  nearestVertex rhumbDistance A ([A] ++ [A]) = (Some (rhumbDistance A A), Some A).
Proof.
  assert (H : forall v, In v ([A] ++ [A]) -> JS.truthy (rhumbDistance A v) = false).
  { intros v [<- | [<- | []]]; vm_compute; reflexivity. }
  split; [exact H |].
  apply (nearestVertex_all_falsy_last rhumbDistance A [A] A H).
Defined.

End StoreRuns.

Section MeetingRuns.

Local Notation "'routeM'" :=
  (searoute Sample2.meeting Sample.pointToLineDistance Sample.rhumbDistance
            Sample2.findPath Sample.length).
Local Notation "'snappedM'" :=
  (snapped Sample2.meeting Sample.pointToLineDistance Sample.rhumbDistance).



Lemma assembled_nm_of_miles_witness :
  exists rm,
    assembled Sample.length [Sample.C; Sample.A] "miles" = Ok rm /\
    exists miles,
      properties_length rm = Some miles /\
      assembled Sample.length [Sample.C; Sample.A] "nm"
      = Ok (mkLineString [Sample.C; Sample.A] (Some "nm"%string)
                         (Some (JS.mul miles nmFactor))).
Proof.
  eexists. split; [vm_compute; reflexivity |].
  apply (assembled_nm_of_miles Sample.length [Sample.C; Sample.A]).
  vm_compute; reflexivity.
Defined.

End MeetingRuns.
